(** * react-vtk-js: lifecycle of PolyData, View and MultiViewRoot

    A shallow embedding of the three React components of the repository
    whose lifecycle methods drive the vtk.js scene graph:

    - [PolyData]        (the dataset node),
    - [View]            (the single-renderer view node),
    - [MultiViewRoot]   (the shared render window of several views).

    Methods are state transformers in a small monad that threads the
    instance fields, records every call made on an external object (the
    rendering engine, the DOM, the parent representation) in a trace and
    propagates JavaScript exceptions. *)

From Stdlib Require Import ZArith QArith Qround Lia Floats.
From stdpp Require Import base option list strings gmap.
From Equations Require Import Equations.

Local Close Scope Q_scope.
Local Open Scope Z_scope.

(* ===================================================================== *)
(** ** JavaScript values and control *)
(* ===================================================================== *)

Module Js.

(** The only exception the modelled methods can raise themselves: a
    property access or a call on [null]/[undefined], or a built-in
    that rejects its [this] value. *)
Inductive error := TypeError.

Inductive completion (A : Type) :=
| Normal (a : A)
| Throw (e : error).
Arguments Normal {A} a.
Arguments Throw {A} e.

(** What running a method leaves behind: how it completed, the fields
    of [this] (and of the world it touches) and the external calls it
    made, oldest first.  Both survive an exception. *)
Record outcome (S E A : Type) := Outcome {
  result : completion A;
  final : S;
  trace : list E
}.
Arguments Outcome {S E A} result final trace.
Arguments result {S E A} o.
Arguments final {S E A} o.
Arguments trace {S E A} o.

Definition M (S E A : Type) : Type := S -> outcome S E A.

Definition ret {S E A} (a : A) : M S E A :=
  fun s => Outcome (Normal a) s [].

Definition bind {S E A B} (m : M S E A) (f : A -> M S E B) : M S E B :=
  fun s =>
    let o := m s in
    match result o with
    | Normal a =>
        let o' := f a (final o) in
        Outcome (result o') (final o') (trace o ++ trace o')
    | Throw e => Outcome (Throw e) (final o) (trace o)
    end.

Definition throw {S E A} (e : error) : M S E A :=
  fun s => Outcome (Throw e) s [].

Definition get {S E} : M S E S := fun s => Outcome (Normal s) s [].
Definition put {S E} (s : S) : M S E unit := fun _ => Outcome (Normal tt) s [].
Definition modify {S E} (f : S -> S) : M S E unit :=
  fun s => Outcome (Normal tt) (f s) [].
Definition emit {S E} (e : E) : M S E unit :=
  fun s => Outcome (Normal tt) s [e].

(** The completion of a built-in, taken over by the caller. *)
Definition complete {S E A} (c : completion A) : M S E A :=
  fun s => Outcome c s [].

(** [o.f] / [o.f()] where [o] may be [null] or [undefined]. *)
Definition deref {S E A} (o : option A) : M S E A :=
  match o with
  | Some a => ret a
  | None => throw TypeError
  end.

(** [if (c) { body }] *)
Definition when {S E} (c : bool) (body : M S E unit) : M S E unit :=
  if c then body else ret tt.

(** An array object: its identity and its elements.  [===] and [!==]
    on objects compare identities only. *)
Record array (A : Type) := Array {
  addr : positive;
  elems : list A
}.
Arguments Array {A} addr elems.
Arguments addr {A} a.
Arguments elems {A} a.

(** [x !== y] when each side is an array, [null] or [undefined]. *)
Definition strict_neq {A} (x y : option (array A)) : bool :=
  match x, y with
  | Some a, Some b => negb (Pos.eqb (addr a) (addr b))
  | None, None => false
  | _, _ => true
  end.

(** Truthiness of an object reference: only [null] and [undefined]
    are falsy. *)
Definition truthy {A} (o : option A) : bool :=
  match o with Some _ => true | None => false end.

(** Truthiness of an optional string: [undefined] and the empty
    string are falsy. *)
Definition truthy_string (s : option string) : bool :=
  match s with
  | Some EmptyString => false
  | Some _ => true
  | None => false
  end.

(** [s !== t] on optional strings (strings compare by value). *)
Definition string_neq (s t : option string) : bool :=
  match s, t with
  | Some a, Some b => negb (String.eqb a b)
  | None, None => false
  | _, _ => true
  end.

(** Truncation of a number towards zero (ToIntegerOrInfinity). *)
Definition trunc (q : Q) : Z := Z.quot (Qnum q) (Zpos (Qden q)).

(** Lengths in pixels and the device pixel ratio are IEEE 754 doubles,
    multiplied with the rounding of the language.

    Truthiness of a number: [0], [-0] and [NaN] are falsy. *)
Definition truthy_number (x : float) : bool :=
  negb (is_nan x || is_zero x).

(** [Math.floor(x)]: the largest integral double not above [x]; zeros,
    infinities and [NaN] are returned as they are. *)
Definition Math_floor (x : float) : float :=
  match Prim2SF x with
  | S754_finite s m e =>
      let z := if s then Z.neg m else Z.pos m in
      let n := if 0 <=? e then z * 2 ^ e else z / 2 ^ (- e) in
      SF2Prim (binary_normalize prec emax n 0 false)
  | _ => x
  end.

(** [Math.max(x, y)]: [NaN] if either is, and [+0] above [-0]. *)
Definition Math_max (x y : float) : float :=
  if is_nan x || is_nan y then nan
  else if (x <? y)%float then y
  else if (y <? x)%float then x
  else if get_sign x then y else x.

End Js.

(** The monad is used through stdpp's [x ← m; k] and [m ;; k]. *)
Global Instance M_ret {S E} : MRet (Js.M S E) := @Js.ret S E.
Global Instance M_bind {S E} : MBind (Js.M S E) :=
  fun A B f m => Js.bind m f.

(* ===================================================================== *)
(** ** Typed arrays *)
(* ===================================================================== *)

Module TypedArray.

Inductive width := U16 | U32.

Global Instance width_eq_dec : EqDecision width.
Proof. solve_decision. Defined.

Definition bits (w : width) : Z :=
  match w with U16 => 16 | U32 => 32 end.

(** ToUint16 / ToUint32 of an integral number. *)
Definition wrap (w : width) (x : Z) : Z := x mod 2 ^ bits w.

Record t := Make {
  ta_width : width;
  ta_values : list Z
}.

(** The array that [%TypedArray%.from] builds from [xs] with the
    constructor of width [w]. *)
Definition from (w : width) (xs : list Z) : t :=
  Make w (map (wrap w) xs).

(** [%TypedArray%.from], the one function that [Uint16Array] and
    [Uint32Array] inherit as their [from].  It builds the array with
    the constructor it finds in its [this] value and throws when there
    is none: in a method call [C.from(xs)] its [this] is [C], in a
    plain call [f(xs)] it is [undefined]. *)
Definition TypedArray_from (this : option width) (xs : list Z)
  : Js.completion t :=
  match this with
  | Some C => Js.Normal (from C xs)
  | None => Js.Throw Js.TypeError
  end.

(** The values of the expressions [Uint16Array.from] and
    [Uint32Array.from]: reading the property off either constructor
    yields the inherited function, which keeps no memory of the
    constructor it was read from. *)
Definition Uint16Array_from := TypedArray_from.
Definition Uint32Array_from := TypedArray_from.

(** [new Uint32Array(n)]: [n] is truncated to an index, the elements
    start at zero. *)
Definition new_Uint32Array (n : Q) : t :=
  Make U32 (replicate (Z.to_nat (Js.trunc n)) 0).

(** [values[i] = x]: a store outside the array is ignored. *)
Definition store (i : nat) (x : Z) (a : t) : t :=
  Make (ta_width a) (<[i := wrap (ta_width a) x]> (ta_values a)).

(** Storing a possibly fractional number truncates it first. *)
Definition store_number (i : nat) (x : Q) (a : t) : t :=
  store i (Js.trunc x) a.

End TypedArray.

Import TypedArray.

(** External objects (representation, downstream filter, engine objects,
    DOM nodes) are known by an opaque identity. *)
Definition handle := nat.

(* ===================================================================== *)
(** ** PolyData *)
(* ===================================================================== *)

Module PolyData.

Inductive cells := Verts | Lines | Polys | Strips.

Global Instance cells_eq_dec : EqDecision cells.
Proof. solve_decision. Defined.

(** The recognised props.  Coordinates are numbers; cell arrays hold
    sizes and point ids, that is integral numbers. *)
Record props := Props {
  port : Z;
  points : option (Js.array Q);
  verts : option (Js.array Z);
  lines : option (Js.array Z);
  polys : option (Js.array Z);
  strips : option (Js.array Z);
  connectivity : option string
}.


(** The engine's vtkPolyData, as far as this component writes it: the
    point coordinates, the four cell arrays and the modification
    count. *)
Record vtkPolyData := VtkPolyData {
  pd_points : list Q;
  pd_verts : TypedArray.t;
  pd_lines : TypedArray.t;
  pd_polys : TypedArray.t;
  pd_strips : TypedArray.t;
  pd_mtime : nat
}.

Definition newInstance : vtkPolyData :=
  let empty := TypedArray.Make U32 [] in
  VtkPolyData [] empty empty empty empty 0.

Definition get_cells (c : cells) (pd : vtkPolyData) : TypedArray.t :=
  match c with
  | Verts => pd_verts pd
  | Lines => pd_lines pd
  | Polys => pd_polys pd
  | Strips => pd_strips pd
  end.

Definition set_points (d : list Q) (pd : vtkPolyData) : vtkPolyData :=
  VtkPolyData d (pd_verts pd) (pd_lines pd) (pd_polys pd) (pd_strips pd)
    (pd_mtime pd).

Definition set_cells (c : cells) (v : TypedArray.t) (pd : vtkPolyData)
  : vtkPolyData :=
  match c with
  | Verts => VtkPolyData (pd_points pd) v (pd_lines pd) (pd_polys pd)
               (pd_strips pd) (pd_mtime pd)
  | Lines => VtkPolyData (pd_points pd) (pd_verts pd) v (pd_polys pd)
               (pd_strips pd) (pd_mtime pd)
  | Polys => VtkPolyData (pd_points pd) (pd_verts pd) (pd_lines pd) v
               (pd_strips pd) (pd_mtime pd)
  | Strips => VtkPolyData (pd_points pd) (pd_verts pd) (pd_lines pd)
                (pd_polys pd) v (pd_mtime pd)
  end.

Definition touch (pd : vtkPolyData) : vtkPolyData :=
  VtkPolyData (pd_points pd) (pd_verts pd) (pd_lines pd) (pd_polys pd)
    (pd_strips pd) (S (pd_mtime pd)).

(** The fields of a PolyData instance. *)
Record this := This {
  polydata : option vtkPolyData;
  representation : option handle;
  downstream : option handle
}.

(** Calls made on external objects. *)
Inductive call :=
| Points_setData (data : list Q) (numberOfComponents : Z)
| Cells_setData (c : cells) (values : TypedArray.t)
| modified
| dataChanged (r : handle)
| setInputData (d : handle) (p : Z)
| delete.

Definition is_write (c : call) : bool :=
  match c with
  | Points_setData _ _ | Cells_setData _ _ => true
  | _ => false
  end.
Definition is_modified (c : call) : bool :=
  match c with modified => true | _ => false end.
Definition is_dataChanged (c : call) : bool :=
  match c with dataChanged _ => true | _ => false end.
Definition is_setInputData (c : call) : bool :=
  match c with setInputData _ _ => true | _ => false end.

(** How many calls of a kind a trace holds. *)
Definition count (f : call -> bool) (tr : list call) : nat :=
  length (filter (fun c => Is_true (f c)) tr).

Definition M := Js.M this call.

(** A call on [this.polydata] with its effect on the dataset. *)
Definition on_polydata (f : vtkPolyData -> vtkPolyData) (c : call)
  : M unit :=
  s ← Js.get;
  pd ← Js.deref (polydata s);
  Js.put (This (Some (f pd)) (representation s) (downstream s));;
  Js.emit c.

(** The prop that carries the caller-supplied array of a cell type. *)
Definition attribute (c : cells) : props -> option (Js.array Z) :=
  match c with
  | Verts => verts
  | Lines => lines
  | Polys => polys
  | Strips => strips
  end.

(** [x && (!previous || x !== previous.x)] *)
Definition differs {A} (attr : props -> option (Js.array A))
    (p : props) (previous : option props) : bool :=
  Js.truthy (attr p) &&
  match previous with
  | None => true
  | Some prev => Js.strict_neq (attr p) (attr prev)
  end.

(** One of the four blocks that push a caller-supplied cell array:
    [this.polydata.getVerts().setData(cellFrom(verts))] and the like.
    The cell array object is fetched first, then the argument is
    evaluated: [cellFrom] is called plainly, with no [this]. *)
Definition push_cells (c : cells) (attr : props -> option (Js.array Z))
    (cellFrom : option width -> list Z -> Js.completion TypedArray.t)
    (p : props) (previous : option props) (changeDetected : bool)
  : M bool :=
  match attr p with
  | Some a =>
      if differs attr p previous then
        s ← Js.get;
        _ ← Js.deref (polydata s);
        values ← Js.complete (cellFrom None (Js.elems a));
        on_polydata (set_cells c values) (Cells_setData c values);;
        mret true
      else mret changeDetected
  | None => mret changeDetected
  end.

(** [for (let i = 0; i < nbPoints; i++) values[i + 1] = i;] from the
    current [i] on. *)
Equations? fill_ids (nbPoints : Q) (i : Z) (values : TypedArray.t)
  : TypedArray.t by wf (Z.to_nat (Qceiling nbPoints - i)) lt :=
fill_ids nbPoints i values with Qlt_le_dec (inject_Z i) nbPoints := {
  | left _ =>
      fill_ids nbPoints (i + 1) (store (Z.to_nat (i + 1)) i values);
  | right _ => values }.
Proof.
  assert (i < Qceiling nbPoints).
  { rewrite Zlt_Qlt. eapply Qlt_le_trans; [eassumption|apply Qle_ceiling]. }
  lia.
Qed.

(** The loop of the ['triangles'] case, from the current [i] and
    [offset] on. *)
Equations? fill_triangles (nbPoints : Q) (i : Z) (offset : nat)
    (values : TypedArray.t)
  : TypedArray.t by wf (Z.to_nat (Qceiling nbPoints - i)) lt :=
fill_triangles nbPoints i offset values
  with Qlt_le_dec (inject_Z i) nbPoints := {
  | left _ =>
      let values := store offset 3 values in
      let values := store (offset + 1) (i + 0) values in
      let values := store (offset + 2) (i + 1) values in
      let values := store (offset + 3) (i + 2) values in
      fill_triangles nbPoints (i + 3) (offset + 4) values;
  | right _ => values }.
Proof.
  assert (i < Qceiling nbPoints).
  { rewrite Zlt_Qlt. eapply Qlt_le_trans; [eassumption|apply Qle_ceiling]. }
  lia.
Qed.

(** The block synthesised by the ['points'] and ['strips'] cases. *)
Definition ids_block (nbPoints : Q) : TypedArray.t :=
  let values := new_Uint32Array (nbPoints + 1)%Q in
  let values := store_number 0 nbPoints values in
  fill_ids nbPoints 0 values.

(** The block synthesised by the ['triangles'] case. *)
Definition triangles_block (nbPoints : Q) : TypedArray.t :=
  let values := new_Uint32Array (nbPoints + nbPoints / 3)%Q in
  fill_triangles nbPoints 0 0%nat values.

(** The arms of [switch (connectivity)]. *)
Inductive switch_case :=
| case_points | case_triangles | case_strips | case_default.

Definition case_of (connectivity : option string) : switch_case :=
  match connectivity with
  | Some "points"%string => case_points
  | Some "triangles"%string => case_triangles
  | Some "strips"%string => case_strips
  | _ => case_default
  end.

Definition update (p : props) (previous : option props) : M unit :=
  let connectivity := connectivity p in
  pts ← Js.deref (points p);
  let length := Z.of_nat (length (Js.elems pts)) in
  let changeDetected := false in
  let cellFrom :=
    if 196608 <? length then Uint32Array_from else Uint16Array_from in
  changeDetected ←
    (if differs points p previous then
       on_polydata (set_points (Js.elems pts))
         (Points_setData (Js.elems pts) 3);;
       mret true
     else mret changeDetected);
  changeDetected ← push_cells Verts verts cellFrom p previous changeDetected;
  changeDetected ← push_cells Lines lines cellFrom p previous changeDetected;
  changeDetected ← push_cells Polys polys cellFrom p previous changeDetected;
  changeDetected ← push_cells Strips strips cellFrom p previous changeDetected;
  changeDetected ←
    (if Js.truthy_string connectivity &&
        (Js.truthy_string connectivity ||
         match previous with
         | None => true
         | Some prev =>
             Js.string_neq connectivity (PolyData.connectivity prev)
         end)
     then
       let nbPoints := (inject_Z length / 3)%Q in
       match case_of connectivity with
       | case_points =>
           let values := ids_block nbPoints in
           on_polydata (set_cells Verts values)
             (Cells_setData Verts values);;
           mret true
       | case_triangles =>
           let values := triangles_block nbPoints in
           on_polydata (set_cells Polys values)
             (Cells_setData Polys values);;
           mret true
       | case_strips =>
           let values := ids_block nbPoints in
           on_polydata (set_cells Strips values)
             (Cells_setData Strips values);;
           mret true
       | case_default => mret changeDetected
       end
     else mret changeDetected);
  Js.when changeDetected (
    on_polydata touch modified;;
    s ← Js.get;
    match representation s with
    | Some r => Js.emit (dataChanged r)
    | None => mret tt
    end).

Definition constructor : this := This (Some newInstance) None None.

(** The render pass, with the values read from RepresentationContext
    and DownstreamContext. *)
Definition render (representation downstream : option handle) : M unit :=
  Js.modify (fun s => This (polydata s) representation (PolyData.downstream s));;
  s ← Js.get;
  Js.when (negb (Js.truthy (PolyData.downstream s)))
    (Js.put (This (polydata s) (PolyData.representation s) downstream)).

Definition componentDidMount (p : props) : M unit :=
  update p None;;
  s ← Js.get;
  d ← Js.deref (downstream s);
  Js.emit (setInputData d (port p)).

Definition componentDidUpdate (p prevProps : props) : M unit :=
  update p (Some prevProps).

Definition componentWillUnmount : M unit :=
  on_polydata id delete;;
  Js.modify (fun s => This None (representation s) (downstream s)).

(** What React asks of a mounted instance, one request after the
    other; the fields keep the value a method left them with, also
    when it throws. *)
Inductive lifecycle :=
| Render (representation downstream : option handle)
| DidMount (p : props)
| DidUpdate (p prevProps : props)
| WillUnmount.

Definition request (e : lifecycle) : M unit :=
  match e with
  | Render r d => render r d
  | DidMount p => componentDidMount p
  | DidUpdate p prevProps => componentDidUpdate p prevProps
  | WillUnmount => componentWillUnmount
  end.

Definition after (es : list lifecycle) (s : this) : this :=
  foldl (fun s e => Js.final (request e s)) s es.

End PolyData.

(* ===================================================================== *)
(** ** The browser and the rendering engine seen from the view nodes *)
(* ===================================================================== *)

Module Dom.

(** A DOM element with the logical (CSS pixel) size that
    [getBoundingClientRect()] reports for it. *)
Record container := Container {
  node : handle;
  width : float;
  height : float
}.

(** Calls made by View and MultiViewRoot on the engine and the
    browser. *)
Inductive call :=
| addRenderer (rw r : handle)
| removeRenderer (rw : handle) (r : option handle)
| addView (rw v : handle)
| removeView (rw : handle) (v : option handle)
| setView (i v : handle)
| initialize (i : handle)
| setInteractorStyle (i st : handle)
| bindEvents (i c : handle)
| unbindEvents (i : handle)
| setContainer (v : handle) (c : option handle)
| setSize (v : handle) (w h : float)
| render (rw : handle)
| delete (o : handle)
| observe (c : handle)
| disconnect
| removeKeyListener
| setTimeout (id : nat).

(** [Math.max(x, 10)] *)
Definition at_least_10 (x : float) : float := Js.Math_max x 10.

End Dom.

(* ===================================================================== *)
(** ** View *)
(* ===================================================================== *)

Module View.
Import Dom.

Record this := This {
  containerRef : option container;
  renderWindow : option handle;
  renderer : option handle;
  openglRenderWindow : option handle;
  interactor : option handle;
  style : option handle;
  resizeObserver : option handle;
  hasFocus : bool
}.

Definition M := Js.M this call.

Definition blank : this :=
  This None None None None None None None false.

(** The constructor; [fresh] is the identity of the first object the
    engine hands out, the following ones are numbered from it. *)
Definition constructor (fresh : handle) : M unit :=
  let rw := fresh in
  let r := S fresh in
  let v := S (S fresh) in
  let i := S (S (S fresh)) in
  let st := S (S (S (S fresh))) in
  let ro := S (S (S (S (S fresh)))) in
  Js.emit (addRenderer rw r);;
  Js.emit (addView rw v);;
  Js.emit (setView i v);;
  Js.emit (initialize i);;
  Js.emit (setInteractorStyle i st);;
  Js.put (This None (Some rw) (Some r) (Some v) (Some i) (Some st)
            (Some ro) false).

(** React commits the rendered element: [containerRef.current]. *)
Definition attach (c : option container) : M unit :=
  Js.modify (fun s =>
    This c (renderWindow s) (renderer s) (openglRenderWindow s)
      (interactor s) (style s) (resizeObserver s) (hasFocus s)).

Definition onResize : M unit :=
  s ← Js.get;
  match containerRef s with
  | Some container =>
      let width := width container in
      let height := height container in
      v ← Js.deref (openglRenderWindow s);
      Js.emit (setSize v (at_least_10 width) (at_least_10 height));;
      rw ← Js.deref (renderWindow s);
      Js.emit (render rw)
  | None => mret tt
  end.

Definition componentWillUnmount : M unit :=
  Js.emit removeKeyListener;;
  (* Stop size listening *)
  s ← Js.get;
  _ ← Js.deref (resizeObserver s);
  Js.emit disconnect;;
  Js.modify (fun s =>
    This (containerRef s) (renderWindow s) (renderer s)
      (openglRenderWindow s) (interactor s) (style s) None (hasFocus s));;
  (* Detach from DOM *)
  s ← Js.get;
  i ← Js.deref (interactor s);
  Js.emit (unbindEvents i);;
  v ← Js.deref (openglRenderWindow s);
  Js.emit (setContainer v None);;
  (* Free memory *)
  rw ← Js.deref (renderWindow s);
  Js.emit (removeRenderer rw (renderer s));;
  Js.emit (removeView rw (openglRenderWindow s));;
  Js.emit (delete i);;
  Js.modify (fun s =>
    This (containerRef s) (renderWindow s) (renderer s)
      (openglRenderWindow s) None (style s) (resizeObserver s)
      (hasFocus s));;
  s ← Js.get;
  r ← Js.deref (renderer s);
  Js.emit (delete r);;
  Js.modify (fun s =>
    This (containerRef s) (renderWindow s) None
      (openglRenderWindow s) (interactor s) (style s) (resizeObserver s)
      (hasFocus s));;
  s ← Js.get;
  rw ← Js.deref (renderWindow s);
  Js.emit (delete rw);;
  Js.modify (fun s =>
    This (containerRef s) None (renderer s)
      (openglRenderWindow s) (interactor s) (style s) (resizeObserver s)
      (hasFocus s));;
  s ← Js.get;
  v ← Js.deref (openglRenderWindow s);
  Js.emit (delete v);;
  Js.modify (fun s =>
    This (containerRef s) (renderWindow s) (renderer s)
      None (interactor s) (style s) (resizeObserver s)
      (hasFocus s)).

End View.

(* ===================================================================== *)
(** ** MultiViewRoot *)
(* ===================================================================== *)

Module MultiViewRoot.
Import Dom.

Record props := Props {
  disabled : bool;
  triggerRender : Z
}.

(** A function value handed to [setTimeout]: the [render] method of
    a render window, read off the object when the timer is set. *)
Inductive callback := render_of (rw : handle).

(** The fields of the instance. *)
Record this := This {
  containerRef : option container;
  renderWindow : option handle;
  renderWindowView : option handle;
  interactor : option handle;
  initialized : bool;
  renderViewTimeout : option nat
}.

(** What the instance reaches in the browser and the engine: the
    container its interactor is bound to ([interactor.getContainer()]),
    [window.devicePixelRatio] ([NaN] stands for a missing value, falsy
    either way), the timers that are set and have not fired, the next
    timer id, and the engine objects released so far. *)
Record world := World {
  interactor_container : option handle;
  devicePixelRatio : float;
  timers : list (nat * callback);
  next_timer : nat;
  released : list handle
}.

Record state := State { self : this; env : world }.

Definition M := Js.M state call.

Definition set_self (f : this -> this) : M unit :=
  Js.modify (fun s => State (f (self s)) (env s)).
Definition set_env (f : world -> world) : M unit :=
  Js.modify (fun s => State (self s) (f (env s))).

Definition with_containerRef (c : option container) (t : this) : this :=
  This c (renderWindow t) (renderWindowView t) (interactor t)
    (initialized t) (renderViewTimeout t).
Definition with_renderWindow (h : option handle) (t : this) : this :=
  This (containerRef t) h (renderWindowView t) (interactor t)
    (initialized t) (renderViewTimeout t).
Definition with_renderWindowView (h : option handle) (t : this) : this :=
  This (containerRef t) (renderWindow t) h (interactor t)
    (initialized t) (renderViewTimeout t).
Definition with_interactor (h : option handle) (t : this) : this :=
  This (containerRef t) (renderWindow t) (renderWindowView t) h
    (initialized t) (renderViewTimeout t).
Definition with_initialized (b : bool) (t : this) : this :=
  This (containerRef t) (renderWindow t) (renderWindowView t)
    (interactor t) b (renderViewTimeout t).
Definition with_renderViewTimeout (id : option nat) (t : this) : this :=
  This (containerRef t) (renderWindow t) (renderWindowView t)
    (interactor t) (initialized t) id.

Definition with_interactor_container (c : option handle) (w : world)
  : world :=
  World c (devicePixelRatio w) (timers w) (next_timer w) (released w).
Definition with_timers (l : list (nat * callback)) (w : world) : world :=
  World (interactor_container w) (devicePixelRatio w) l (next_timer w)
    (released w).
Definition with_released (l : list handle) (w : world) : world :=
  World (interactor_container w) (devicePixelRatio w) (timers w)
    (next_timer w) l.

(** [o.delete()] on an engine object. *)
Definition release (o : handle) : M unit :=
  Js.emit (delete o);;
  set_env (fun w => with_released (o :: released w) w).

(** [interactor.unbindEvents()] *)
Definition unbind (i : handle) : M unit :=
  Js.emit (unbindEvents i);;
  set_env (with_interactor_container None).

(** [interactor.bindEvents(container)] *)
Definition bind_to (i : handle) (c : handle) : M unit :=
  Js.emit (bindEvents i c);;
  set_env (with_interactor_container (Some c)).

(** [setTimeout(f, 0)]: the timer joins the queue, its id is
    returned. *)
Definition set_timeout (f : callback) : M nat :=
  s ← Js.get;
  let id := next_timer (env s) in
  Js.emit (setTimeout id);;
  set_env (fun w =>
    World (interactor_container w) (devicePixelRatio w)
      (timers w ++ [(id, f)]) (S id) (released w));;
  mret id.

(** The state before the component exists, in a browser with the
    given device pixel ratio. *)
Definition blank (dpr : float) : state :=
  State (This None None None None false None) (World None dpr [] 1 []).

Definition constructor (fresh : handle) : M unit :=
  let rw := fresh in
  let v := S fresh in
  let i := S (S fresh) in
  set_self (with_renderWindow (Some rw));;
  set_self (with_interactor None);;
  set_self (with_renderWindowView (Some v));;
  Js.emit (addView rw v);;
  set_self (with_interactor (Some i));;
  Js.emit (setView i v);;
  set_self (with_initialized false).

(** React commits the rendered element: [containerRef.current]. *)
Definition attach (c : option container) : M unit :=
  set_self (with_containerRef c).

Definition onResize : M unit :=
  s ← Js.get;
  match containerRef (self s) with
  | Some container =>
      let devicePixelRatio :=
        if Js.truthy_number (devicePixelRatio (env s))
        then devicePixelRatio (env s) else 1%float in
      let width := width container in
      let height := height container in
      let w := Js.Math_floor (width * devicePixelRatio)%float in
      let h := Js.Math_floor (height * devicePixelRatio)%float in
      v ← Js.deref (renderWindowView (self s));
      Js.emit (setSize v (at_least_10 w) (at_least_10 h));;
      rw ← Js.deref (renderWindow (self s));
      Js.emit (render rw)
  | None => mret tt
  end.

Definition update (p : props) (previous : option props) : M unit :=
  let triggerRender := triggerRender p in
  match previous with
  | Some prev =>
      if negb (triggerRender =? MultiViewRoot.triggerRender prev) then
        s ← Js.get;
        rw ← Js.deref (renderWindow (self s));
        id ← set_timeout (render_of rw);
        set_self (with_renderViewTimeout (Some id))
      else mret tt
  | None => mret tt
  end.

Definition componentDidMount (p : props) : M unit :=
  if negb (disabled p) then
    s ← Js.get;
    let container := containerRef (self s) in
    v ← Js.deref (renderWindowView (self s));
    Js.emit (setContainer v (node <$> container));;
    i ← Js.deref (interactor (self s));
    Js.emit (initialize i);;
    c ← Js.deref container;
    Js.emit (observe (node c));;
    onResize;;
    set_self (with_initialized true);;
    update p None
  else mret tt.

Definition componentDidUpdate (p prevProps : props) : M unit :=
  update p (Some prevProps).

Definition componentWillUnmount : M unit :=
  s ← Js.get;
  (if initialized (self s) then
     (* Stop size listening *)
     Js.emit disconnect;;
     i ← Js.deref (interactor (self s));
     (if Js.truthy (interactor_container (env s)) then unbind i
      else mret tt);;
     v ← Js.deref (renderWindowView (self s));
     Js.emit (setContainer v None)
   else mret tt);;
  rw ← Js.deref (renderWindow (self s));
  Js.emit (removeView rw (renderWindowView (self s)));;
  i ← Js.deref (interactor (self s));
  release i;;
  release rw;;
  v ← Js.deref (renderWindowView (self s));
  release v;;
  set_self (with_interactor None);;
  set_self (with_renderWindow None);;
  set_self (with_renderWindowView None).

Definition bindInteractorEvents (container : option handle) : M unit :=
  s ← Js.get;
  match interactor (self s) with
  | Some i =>
      (if Js.truthy (interactor_container (env s)) then unbind i
       else mret tt);;
      match container with
      | Some c => bind_to i c
      | None => mret tt
      end
  | None => mret tt
  end.

(** One turn of the event loop: the oldest timer that is set fires
    and its callback runs.  Nothing in the component clears a timer,
    so a timer leaves the queue only here. *)
Definition fire_timer : M unit :=
  s ← Js.get;
  match timers (env s) with
  | (_, render_of rw) :: rest =>
      set_env (with_timers rest);;
      Js.emit (render rw)
  | [] => mret tt
  end.

End MultiViewRoot.

(* ===================================================================== *)
(** ** Vocabulary of the statements *)
(* ===================================================================== *)

Module Spec.
Import PolyData.

Definition nonempty {A} (l : list A) : bool :=
  match l with [] => false | _ :: _ => true end.

(** The effect of a call on the dataset it is made on. *)
Definition apply_call (pd : vtkPolyData) (c : call) : vtkPolyData :=
  match c with
  | Points_setData d _ => set_points d pd
  | Cells_setData k v => set_cells k v pd
  | modified => touch pd
  | _ => pd
  end.

(** The writes that [update] plans, in program order: the points and
    the connectivity block. *)
Definition points_write (p : props) (previous : option props)
  : list call :=
  match points p with
  | Some a =>
      if differs points p previous then [Points_setData (Js.elems a) 3]
      else []
  | None => []
  end.

Definition synthesis_write (p : props) (n : nat) : list call :=
  let nbPoints := (inject_Z (Z.of_nat n) / 3)%Q in
  match case_of (connectivity p) with
  | case_points => [Cells_setData Verts (ids_block nbPoints)]
  | case_triangles => [Cells_setData Polys (triangles_block nbPoints)]
  | case_strips => [Cells_setData Strips (ids_block nbPoints)]
  | case_default => []
  end.

Definition writes (p : props) (previous : option props) (n : nat)
  : list call :=
  points_write p previous ++ synthesis_write p n.

(** Some caller-supplied cell array is present and not reference-equal
    to its previous value: [update] sets out to push it. *)
Definition pushes_cells (p : props) (previous : option props) : bool :=
  differs verts p previous
  || differs lines p previous
  || differs polys p previous
  || differs strips p previous.

(** The notification that closes an update with writes [ws]. *)
Definition notification (ws : list call) (r : option handle)
  : list call :=
  match ws with
  | [] => []
  | _ :: _ =>
      modified :: match r with Some r => [dataChanged r] | None => [] end
  end.

(** A computation that, on a live dataset, completes with [a] after
    the calls [ws], each with its effect on the dataset, and leaves the
    other fields alone. *)
Definition writer (r d : option handle) {A} (m : M A) (a : A)
    (ws : list call) : Prop :=
  forall pd,
    m (This (Some pd) r d) =
      Js.Outcome (Js.Normal a)
        (This (Some (foldl apply_call pd ws)) r d) ws.

(** A computation that, on a live dataset, throws a TypeError after
    the calls [ws]. *)
Definition thrower (r d : option handle) {A} (m : M A)
    (ws : list call) : Prop :=
  forall pd,
    m (This (Some pd) r d) =
      Js.Outcome (Js.Throw Js.TypeError)
        (This (Some (foldl apply_call pd ws)) r d) ws.

(** The array that the last [setData] of a trace leaves in the cell
    array [c], if the trace writes it at all. *)
Fixpoint last_write (c : cells) (l : list call) : option TypedArray.t :=
  match l with
  | [] => None
  | x :: l' =>
      match last_write c l' with
      | Some v => Some v
      | None =>
          match x with
          | Cells_setData c' v => if decide (c' = c) then Some v else None
          | _ => None
          end
      end
  end.

(** The connectivity modes that synthesise a block. *)
Definition implicit_mode (connectivity : option string) : bool :=
  match case_of connectivity with
  | case_default => false
  | _ => true
  end.

(** The connectivity attribute is not what it was in the previous
    props (at mount there are none). *)
Definition connectivity_changed (p : props) (previous : option props)
  : bool :=
  match previous with
  | None => true
  | Some prev => Js.string_neq (connectivity p) (connectivity prev)
  end.

Definition is_cells_write (c : call) : bool :=
  match c with Cells_setData _ _ => true | _ => false end.


(** [points.length / 3] *)
Definition nbPoints_of (len : nat) : Q := (inject_Z (Z.of_nat len) / 3)%Q.

(** One triangle cell on the points [i], [i+1], [i+2]. *)
Definition triangle (i : Z) : list Z := [3; i; i + 1; i + 2].

(** The cells written by iterations [k], [k+1], ... ([todo] of them)
    as a 32-bit array holds them. *)
Definition stored_triangles (k todo : nat) : list Z :=
  concat (map (fun j => map (wrap U32) (triangle (3 * Z.of_nat j)))
            (seq k todo)).

(** The expected polygon block for [n] points: [3, i, i+1, i+2] for
    i = 0, 3, ..., n-3. *)
Definition triangle_cells (n : nat) : list Z :=
  concat (map (fun j => triangle (3 * Z.of_nat j)) (seq 0 (n / 3))).

End Spec.

(* ===================================================================== *)
(** ** Sample props and instances *)
(* ===================================================================== *)

Module Scenes.
Import PolyData.

Definition sample_points : Js.array Q :=
  Js.Array 2%positive [0; 0; 0; 1; 0; 0; 0; 1; 0]%Q.
Definition sample_verts : Js.array Z := Js.Array 3%positive [1; 0].
Definition sample_lines : Js.array Z := Js.Array 4%positive [2; 0; 1].
Definition sample_polys : Js.array Z := Js.Array 5%positive [3; 0; 1; 2].

Definition three_attributes : props :=
  Props 0 (Some sample_points) (Some sample_verts) (Some sample_lines)
    (Some sample_polys) None (Some "manual"%string).

(** A second array with the same coordinates: another object. *)
Definition moved_points : Js.array Q :=
  Js.Array 6%positive [0; 0; 0; 1; 0; 0; 0; 1; 0]%Q.

Definition moved_triangle : props :=
  Props 0 (Some moved_points) None None None None
    (Some "triangles"%string).

Definition only_points : props :=
  Props 0 (Some sample_points) None None None None (Some "manual"%string).

Definition one_triangle : props :=
  Props 0 (Some sample_points) None None None None
    (Some "triangles"%string).

Definition points_mode : props :=
  Props 0 (Some sample_points) None None None None (Some "points"%string).

Definition live (r d : option handle) : this :=
  This (Some newInstance) r d.

(** A view right after its constructor and React's commit. *)
Definition mounted_view (fresh : handle) (c : Dom.container) : View.this :=
  Js.final ((View.constructor fresh;; View.attach (Some c)) View.blank).

(** A root that went through its constructor and its mount. *)
Definition mounted_root (fresh : handle) (c : Dom.container) (dpr : float)
    (p : MultiViewRoot.props) : MultiViewRoot.state :=
  Js.final ((MultiViewRoot.constructor fresh;;
             MultiViewRoot.attach (Some c);;
             MultiViewRoot.componentDidMount p)
              (MultiViewRoot.blank dpr)).

End Scenes.

(* ===================================================================== *)
(** ** Running the monad *)
(* ===================================================================== *)

Section Run.
Context {S E : Type}.

Lemma bind_normal {A B} (m : Js.M S E A) (f : A -> Js.M S E B)
    (s s' : S) (a : A) (t : list E) :
  m s = Js.Outcome (Js.Normal a) s' t ->
  (m ≫= f) s =
    Js.Outcome (Js.result (f a s')) (Js.final (f a s'))
      (t ++ Js.trace (f a s')).
Proof.
  intros H. unfold mbind, M_bind, Js.bind. rewrite H. reflexivity.
Qed.

Lemma bind_throw {A B} (m : Js.M S E A) (f : A -> Js.M S E B)
    (s s' : S) (e : Js.error) (t : list E) :
  m s = Js.Outcome (Js.Throw e) s' t ->
  (m ≫= f) s = Js.Outcome (Js.Throw e) s' t.
Proof.
  intros H. unfold mbind, M_bind, Js.bind. rewrite H. reflexivity.
Qed.

Lemma outcome_eta {A} (o : Js.outcome S E A) :
  Js.Outcome (Js.result o) (Js.final o) (Js.trace o) = o.
Proof. destruct o; reflexivity. Qed.

End Run.

(* ===================================================================== *)
(** ** PolyData: what one call of [update] does *)
(* ===================================================================== *)

Module PolyDataFacts.
Import PolyData Spec Scenes.

Lemma on_polydata_run f c pd r d :
  on_polydata f c (This (Some pd) r d) =
    Js.Outcome (Js.Normal tt) (This (Some (f pd)) r d) [c].
Proof. reflexivity. Qed.

Lemma differs_present {A} (attr : props -> option (Js.array A)) p previous :
  differs attr p previous = true -> exists a, attr p = Some a.
Proof.
  unfold differs. destruct (attr p) as [a|]; [eauto|discriminate].
Qed.

(** A cell array that is not pushed costs no call. *)
Lemma push_cells_skip c attr cellFrom p previous cd s :
  differs attr p previous = false ->
  push_cells c attr cellFrom p previous cd s =
    Js.Outcome (Js.Normal cd) s [].
Proof.
  intros Hd. unfold push_cells. rewrite Hd.
  destruct (attr p); reflexivity.
Qed.

(** A cell array that is pushed: the plain call of the inherited
    [from] throws, before [setData] is reached, on a live dataset and
    on a deleted one alike. *)
Lemma push_cells_throw c attr p previous cd s :
  differs attr p previous = true ->
  push_cells c attr TypedArray_from p previous cd s =
    Js.Outcome (Js.Throw Js.TypeError) s [].
Proof.
  intros Hd. destruct (differs_present _ _ _ Hd) as [a Ha].
  unfold push_cells. rewrite Ha, Hd.
  destruct s as [[pd|] r d]; reflexivity.
Qed.

(** Whichever constructor [cellFrom] is read from, it is the inherited
    function. *)
Lemma cellFrom_inherited (b : bool) :
  (if b then Uint32Array_from else Uint16Array_from) = TypedArray_from.
Proof. destruct b; reflexivity. Qed.

Lemma case_of_falsy c :
  Js.truthy_string c = false -> case_of c = case_default.
Proof. destruct c as [[|]|]; simpl; congruence. Qed.

Lemma foldl_app_nonempty {A} (l1 l2 : list A) :
  nonempty (l1 ++ l2) = nonempty l1 || nonempty l2.
Proof. destruct l1; reflexivity. Qed.

Section Writer.
Variables r d : option handle.

Lemma writer_ret {A} (a : A) : writer r d (mret a) a [].
Proof. intros pd. reflexivity. Qed.

Lemma writer_bind {A B} (m : M A) (f : A -> M B) a b ws ws' :
  writer r d m a ws -> writer r d (f a) b ws' ->
  writer r d (m ≫= f) b (ws ++ ws').
Proof.
  intros Hm Hf pd. rewrite (bind_normal _ _ _ _ _ _ (Hm pd)).
  rewrite (Hf _). simpl. rewrite foldl_app. reflexivity.
Qed.

Lemma writer_call f c :
  (forall pd, f pd = apply_call pd c) ->
  writer r d (on_polydata f c) tt [c].
Proof. intros Hf pd. rewrite on_polydata_run, Hf. reflexivity. Qed.

Lemma writer_push_cells c attr cellFrom p previous cd :
  differs attr p previous = false ->
  writer r d (push_cells c attr cellFrom p previous cd) cd [].
Proof. intros Hd pd. now apply push_cells_skip. Qed.

Lemma thrower_push_cells c attr p previous cd :
  differs attr p previous = true ->
  thrower r d (push_cells c attr TypedArray_from p previous cd) [].
Proof. intros Hd pd. now apply push_cells_throw. Qed.

Lemma thrower_bind_l {A B} (m : M A) (f : A -> M B) ws :
  thrower r d m ws -> thrower r d (m ≫= f) ws.
Proof. intros Hm pd. now rewrite (bind_throw _ _ _ _ _ _ (Hm pd)). Qed.

Lemma thrower_bind_r {A B} (m : M A) (f : A -> M B) a ws ws' :
  writer r d m a ws -> thrower r d (f a) ws' ->
  thrower r d (m ≫= f) (ws ++ ws').
Proof.
  intros Hm Hf pd. rewrite (bind_normal _ _ _ _ _ _ (Hm pd)).
  rewrite (Hf _). simpl. rewrite foldl_app. reflexivity.
Qed.

Lemma writer_eq {A} (m : M A) a a' ws ws' :
  writer r d m a ws -> a = a' -> ws = ws' -> writer r d m a' ws'.
Proof. intros H -> ->. exact H. Qed.

Lemma writer_points p previous a cd :
  points p = Some a ->
  writer r d
    (if differs points p previous
     then on_polydata (set_points (Js.elems a))
            (Points_setData (Js.elems a) 3);; mret true
     else mret cd)
    (cd || nonempty (points_write p previous))
    (points_write p previous).
Proof.
  intros Hp. unfold points_write. rewrite Hp.
  destruct (differs points p previous).
  - eapply writer_eq.
    + eapply writer_bind; [apply writer_call; reflexivity|].
      apply writer_ret.
    + simpl. now rewrite orb_true_r.
    + reflexivity.
  - eapply writer_eq; [apply writer_ret| |reflexivity].
    simpl. now rewrite orb_false_r.
Qed.

Lemma writer_synthesis p previous n cd :
  writer r d
    (if Js.truthy_string (connectivity p) &&
        (Js.truthy_string (connectivity p) ||
         match previous with
         | None => true
         | Some prev =>
             Js.string_neq (connectivity p) (connectivity prev)
         end)
     then
       let nbPoints := (inject_Z (Z.of_nat n) / 3)%Q in
       match case_of (connectivity p) with
       | case_points =>
           let values := ids_block nbPoints in
           on_polydata (set_cells Verts values)
             (Cells_setData Verts values);;
           mret true
       | case_triangles =>
           let values := triangles_block nbPoints in
           on_polydata (set_cells Polys values)
             (Cells_setData Polys values);;
           mret true
       | case_strips =>
           let values := ids_block nbPoints in
           on_polydata (set_cells Strips values)
             (Cells_setData Strips values);;
           mret true
       | case_default => mret cd
       end
     else mret cd)
    (cd || nonempty (synthesis_write p n))
    (synthesis_write p n).
Proof.
  unfold synthesis_write.
  destruct (Js.truthy_string (connectivity p)) eqn:Ht; simpl.
  - destruct (case_of (connectivity p)); cbv zeta.
    1-3: eapply writer_eq;
      [eapply writer_bind; [apply writer_call; reflexivity|];
       apply writer_ret
      |simpl; now rewrite orb_true_r
      |reflexivity].
    eapply writer_eq; [apply writer_ret| |reflexivity].
    simpl. now rewrite orb_false_r.
  - rewrite (case_of_falsy _ Ht).
    eapply writer_eq; [apply writer_ret| |reflexivity].
    simpl. now rewrite orb_false_r.
Qed.

Lemma writer_notify (b : bool) (ws : list call) :
  b = nonempty ws ->
  writer r d
    (Js.when b
       (on_polydata touch modified;;
        s ← Js.get;
        match representation s with
        | Some r => Js.emit (dataChanged r)
        | None => mret tt
        end))
    tt (notification ws r).
Proof.
  intros ->.
  destruct ws as [|c ws]; intros pd; [reflexivity|].
  destruct r; reflexivity.
Qed.

End Writer.

(** [update] on a live dataset, with [points] present and no cell
    array to push: it completes, performs the planned writes in order
    and closes with the notification. *)
Lemma update_run p previous a pd r d :
  points p = Some a ->
  pushes_cells p previous = false ->
  let ws := writes p previous (length (Js.elems a)) in
  update p previous (This (Some pd) r d) =
    Js.Outcome (Js.Normal tt)
      (This (Some (foldl apply_call pd (ws ++ notification ws r))) r d)
      (ws ++ notification ws r).
Proof.
  intros Hp Hc ws. unfold pushes_cells in Hc.
  apply orb_false_elim in Hc as [Hc Hs].
  apply orb_false_elim in Hc as [Hc Ho].
  apply orb_false_elim in Hc as [Hv Hl].
  assert (W : writer r d (update p previous) tt (ws ++ notification ws r)).
  2: { apply W. }
  unfold update. rewrite Hp. cbv zeta.
  eapply writer_eq.
  - eapply writer_bind; [apply (writer_ret r d a)|]. cbv beta.
    eapply writer_bind; [apply writer_points; exact Hp|].
    do 4 (eapply writer_bind; [apply writer_push_cells; assumption|]).
    eapply writer_bind; [apply writer_synthesis|].
    apply (writer_notify r d _ ws).
    unfold ws, writes. rewrite foldl_app_nonempty. reflexivity.
  - reflexivity.
  - unfold ws, writes. simpl. rewrite <- !app_assoc. reflexivity.
Qed.

(** [update] on a live dataset, with [points] present and a cell array
    to push: the points have been written when the first such array
    makes it throw, and nothing follows. *)
Lemma update_throws p previous a pd r d :
  points p = Some a ->
  pushes_cells p previous = true ->
  let ws := points_write p previous in
  update p previous (This (Some pd) r d) =
    Js.Outcome (Js.Throw Js.TypeError)
      (This (Some (foldl apply_call pd ws)) r d) ws.
Proof.
  intros Hp Hc ws. unfold pushes_cells in Hc.
  assert (W : thrower r d (update p previous) ws).
  2: { apply W. }
  unfold update. rewrite Hp. cbv zeta.
  replace ws with ([] ++ ws ++ []) by (simpl; apply app_nil_r).
  eapply thrower_bind_r; [apply (writer_ret r d a)|]. cbv beta.
  rewrite cellFrom_inherited.
  eapply thrower_bind_r; [apply writer_points; exact Hp|].
  destruct (differs verts p previous) eqn:Hv.
  { apply thrower_bind_l. now apply thrower_push_cells. }
  change [] with ([] ++ @nil call).
  eapply thrower_bind_r; [now apply writer_push_cells|].
  destruct (differs lines p previous) eqn:Hl.
  { apply thrower_bind_l. now apply thrower_push_cells. }
  change [] with ([] ++ @nil call).
  eapply thrower_bind_r; [now apply writer_push_cells|].
  destruct (differs polys p previous) eqn:Ho.
  { apply thrower_bind_l. now apply thrower_push_cells. }
  change [] with ([] ++ @nil call).
  eapply thrower_bind_r; [now apply writer_push_cells|].
  destruct (differs strips p previous) eqn:Hs; [|discriminate].
  apply thrower_bind_l. now apply thrower_push_cells.
Qed.

(** Without [points] the first statement of [update] throws, before
    any call is made. *)
Lemma update_no_points p previous s :
  points p = None ->
  update p previous s = Js.Outcome (Js.Throw Js.TypeError) s [].
Proof. intros Hp. unfold update. rewrite Hp. reflexivity. Qed.

End PolyDataFacts.

(* ===================================================================== *)
(** ** PolyData: the synthesised connectivity blocks *)
(* ===================================================================== *)

Module Synthesis.
Import PolyData Spec Scenes.

Lemma nbPoints_lt (len : nat) (i : Z) :
  (inject_Z i < nbPoints_of len)%Q <-> 3 * i < Z.of_nat len.
Proof.
  unfold nbPoints_of, Qlt, Qdiv, Qmult, Qinv, inject_Z. simpl. lia.
Qed.

Lemma fill_triangles_step nb i off v :
  (inject_Z i < nb)%Q ->
  fill_triangles nb i off v =
    fill_triangles nb (i + 3) (off + 4)
      (store (off + 3) (i + 2)
         (store (off + 2) (i + 1)
            (store (off + 1) (i + 0) (store off 3 v)))).
Proof.
  intros H. rewrite fill_triangles_equation_1.
  destruct (Qlt_le_dec (inject_Z i) nb) as [?|Hle]; [reflexivity|].
  exfalso. exact (Qlt_not_le _ _ H Hle).
Qed.

Lemma fill_triangles_stop nb i off v :
  (nb <= inject_Z i)%Q -> fill_triangles nb i off v = v.
Proof.
  intros H. rewrite fill_triangles_equation_1.
  destruct (Qlt_le_dec (inject_Z i) nb) as [Hlt|?]; [|reflexivity].
  exfalso. exact (Qlt_not_le _ _ Hlt H).
Qed.

Lemma fill_triangles_from (m : nat) :
  forall (todo k : nat) (pre : list Z),
    (k + todo = m)%nat ->
    length pre = (4 * k)%nat ->
    fill_triangles (nbPoints_of (9 * m)) (3 * Z.of_nat k) (4 * k)
      (TypedArray.Make U32 (pre ++ replicate (4 * todo) 0)) =
    TypedArray.Make U32 (pre ++ stored_triangles k todo).
Proof.
  induction todo as [|todo IH]; intros k pre Hk Hpre.
  - rewrite fill_triangles_stop; [reflexivity|].
    apply Qnot_lt_le. rewrite nbPoints_lt. lia.
  - rewrite fill_triangles_step by (rewrite nbPoints_lt; lia).
    replace (4 * S todo)%nat with (S (S (S (S (4 * todo))))) by lia.
    unfold store. cbn [ta_width ta_values replicate].
    rewrite <- Hpre, Z.add_0_r.
    rewrite !insert_app_r_alt by lia.
    replace (length pre - length pre)%nat with 0%nat by lia.
    replace (length pre + 1 - length pre)%nat with 1%nat by lia.
    replace (length pre + 2 - length pre)%nat with 2%nat by lia.
    replace (length pre + 3 - length pre)%nat with 3%nat by lia.
    cbn [insert list_insert].
    specialize (IH (S k) (pre ++ map (wrap U32) (triangle (3 * Z.of_nat k)))).
    rewrite length_app in IH. cbn [length map triangle] in IH.
    replace (3 * Z.of_nat (S k)) with (3 * Z.of_nat k + 3) in IH by lia.
    replace (4 * S k)%nat with (length pre + 4)%nat in IH by lia.
    rewrite <- !app_assoc in IH. cbn [app] in IH.
    rewrite IH by lia.
    reflexivity.
Qed.

Lemma wrap_small (w : width) (x : Z) :
  0 <= x < 2 ^ bits w -> wrap w x = x.
Proof. unfold wrap. apply Z.mod_small. Qed.

Lemma trunc_triangles_length (m : nat) :
  Z.to_nat (Js.trunc (nbPoints_of (9 * m) + nbPoints_of (9 * m) / 3)%Q)
  = (4 * m)%nat.
Proof.
  unfold Js.trunc, nbPoints_of, Qplus, Qdiv, Qmult, Qinv, inject_Z.
  cbn [Qnum Qden].
  match goal with
  | |- Z.to_nat (Z.quot ?n ?d) = _ =>
      replace n with (4 * Z.of_nat m * d) by lia
  end.
  rewrite Z.quot_mul by lia. lia.
Qed.

Lemma stored_triangles_small (m k todo : nat) :
  (k + todo <= m)%nat -> 9 * Z.of_nat m < 2 ^ 32 ->
  stored_triangles k todo =
    concat (map (fun j => triangle (3 * Z.of_nat j)) (seq k todo)).
Proof.
  intros Hk Hm. unfold stored_triangles. f_equal.
  apply map_ext_in. intros j Hj. apply in_seq in Hj.
  unfold triangle. cbn [map].
  rewrite !wrap_small by (cbn [bits]; lia). reflexivity.
Qed.

(** Triangles mode on [9 * m] coordinates, that is [3 * m] points. *)
Lemma triangles_block_closed (m : nat) :
  9 * Z.of_nat m < 2 ^ 32 ->
  triangles_block (nbPoints_of (9 * m)) =
    TypedArray.Make U32 (triangle_cells (3 * m)).
Proof.
  intros Hm. unfold triangles_block, new_Uint32Array. cbv zeta.
  rewrite trunc_triangles_length.
  pose proof (fill_triangles_from m m 0 [] eq_refl eq_refl) as H.
  cbn [app] in H. change (3 * Z.of_nat 0) with 0 in H.
  change (4 * 0)%nat with 0%nat in H. rewrite H.
  rewrite (stored_triangles_small m) by (auto; lia).
  unfold triangle_cells.
  replace (3 * m / 3)%nat with m; [reflexivity|].
  rewrite Nat.mul_comm, Nat.div_mul; lia.
Qed.

Lemma fill_ids_width nb i v : ta_width (fill_ids nb i v) = ta_width v.
Proof.
  funelim (fill_ids nb i v); [|reflexivity].
  match goal with IH : ta_width (fill_ids _ _ _) = ta_width _ |- _ =>
    rewrite IH end.
  reflexivity.
Qed.

Lemma fill_triangles_width nb i off v :
  ta_width (fill_triangles nb i off v) = ta_width v.
Proof.
  funelim (fill_triangles nb i off v); [|reflexivity].
  match goal with IH : ta_width (fill_triangles _ _ _ _) = ta_width _ |- _ =>
    rewrite IH end.
  reflexivity.
Qed.

Lemma ids_block_width nb : ta_width (ids_block nb) = U32.
Proof. unfold ids_block. cbv zeta. now rewrite fill_ids_width. Qed.

Lemma triangles_block_width nb : ta_width (triangles_block nb) = U32.
Proof. unfold triangles_block. cbv zeta. now rewrite fill_triangles_width. Qed.

End Synthesis.

Module PolyDataTheory.
Import PolyData PolyDataFacts Synthesis Spec Scenes.

Lemma get_cells_set_cells c c' v pd :
  get_cells c (set_cells c' v pd) =
    if decide (c' = c) then v else get_cells c pd.
Proof. destruct c, c'; reflexivity. Qed.

Lemma get_cells_foldl c l : forall pd,
  get_cells c (foldl apply_call pd l) =
    default (get_cells c pd) (last_write c l).
Proof.
  induction l as [|x l IH]; intros pd; [reflexivity|].
  cbn [foldl last_write]. rewrite IH.
  destruct (last_write c l); [reflexivity|].
  destruct x as [| c' v | | | |]; cbn [apply_call default];
    try reflexivity.
  rewrite get_cells_set_cells. destruct (decide (c' = c)); reflexivity.
Qed.

Lemma last_write_app c l1 l2 :
  last_write c (l1 ++ l2) =
    match last_write c l2 with
    | Some v => Some v
    | None => last_write c l1
    end.
Proof.
  induction l1 as [|x l1 IH]; cbn [app last_write].
  - destruct (last_write c l2); reflexivity.
  - rewrite IH. destruct (last_write c l2); reflexivity.
Qed.

Lemma last_write_points c p previous :
  last_write c (points_write p previous) = None.
Proof.
  unfold points_write.
  destruct (points p); [destruct (differs _ _ _)|]; reflexivity.
Qed.

Lemma last_write_notification c ws r :
  last_write c (notification ws r) = None.
Proof. destruct ws; [reflexivity|]. destruct r; reflexivity. Qed.

Lemma synthesis_default p n :
  case_of (connectivity p) = case_default -> synthesis_write p n = [].
Proof. intros H. unfold synthesis_write. now rewrite H. Qed.

Lemma In_writes_synthesis p previous n x :
  In x (synthesis_write p n) -> In x (writes p previous n).
Proof. intros H. unfold writes. rewrite !in_app_iff. tauto. Qed.

Lemma last_write_synthesis c v p previous n r :
  synthesis_write p n = [Cells_setData c v] ->
  let ws := writes p previous n in
  last_write c (ws ++ notification ws r) = Some v.
Proof.
  intros H ws. unfold ws, writes. rewrite H.
  rewrite !last_write_app, last_write_notification. cbn [last_write].
  destruct (decide (c = c)); congruence.
Qed.

Lemma last_write_manual c p previous n r :
  case_of (connectivity p) = case_default ->
  let ws := writes p previous n in
  last_write c (ws ++ notification ws r) = None.
Proof.
  intros H ws. unfold ws, writes. rewrite (synthesis_default _ _ H).
  rewrite !last_write_app, last_write_notification. cbn [last_write].
  apply last_write_points.
Qed.

(** ** Counting calls *)

Lemma count_app f l1 l2 : count f (l1 ++ l2) = (count f l1 + count f l2)%nat.
Proof. unfold count. now rewrite filter_app, length_app. Qed.

Lemma count_cons f x l :
  count f (x :: l) = ((if f x then 1 else 0) + count f l)%nat.
Proof.
  unfold count. rewrite filter_cons.
  destruct (decide (Is_true (f x))) as [H|H]; destruct (f x);
    simpl in *; try reflexivity; tauto.
Qed.

Lemma count_only_writes f l :
  (forall c, is_write c = true -> f c = false) ->
  Forall (fun c => is_write c = true) l -> count f l = 0%nat.
Proof.
  intros Hf. induction 1 as [|x l Hx _ IH]; [reflexivity|].
  rewrite count_cons, IH, (Hf _ Hx). reflexivity.
Qed.

Lemma points_write_is_write p previous :
  Forall (fun c => is_write c = true) (points_write p previous).
Proof.
  unfold points_write.
  destruct (points p); [destruct (differs _ _ _)|]; repeat constructor.
Qed.

Lemma writes_are_writes p previous n :
  Forall (fun c => is_write c = true) (writes p previous n).
Proof.
  unfold writes. rewrite Forall_app. split; [apply points_write_is_write|].
  unfold synthesis_write.
  destruct (case_of (connectivity p)); repeat constructor.
Qed.

Lemma count_points_write f p previous :
  (forall data n, f (Points_setData data n) = false) ->
  count f (points_write p previous) = 0%nat.
Proof.
  intros Hf. unfold points_write.
  destruct (points p); [destruct (differs _ _ _)|]; try reflexivity.
  rewrite count_cons, Hf. reflexivity.
Qed.

Lemma nonempty_points_write p previous :
  nonempty (points_write p previous) = differs points p previous.
Proof.
  unfold points_write, differs.
  destruct (points p) as [a|]; [|reflexivity].
  cbn [Js.truthy andb].
  destruct previous as [prev|]; [|reflexivity].
  destruct (Js.strict_neq _ _); reflexivity.
Qed.

Lemma strict_neq_refl {A} (x : option (Js.array A)) :
  Js.strict_neq x x = false.
Proof. destruct x as [a|]; simpl; [|reflexivity]. now rewrite Pos.eqb_refl. Qed.

Lemma differs_self {A} (attr : props -> option (Js.array A)) p :
  differs attr p (Some p) = false.
Proof. unfold differs. rewrite strict_neq_refl. apply andb_false_r. Qed.

Lemma pushes_cells_self p : pushes_cells p (Some p) = false.
Proof. unfold pushes_cells. now rewrite !differs_self. Qed.

Lemma points_write_self p : points_write p (Some p) = [].
Proof.
  unfold points_write. rewrite differs_self. destruct (points p); reflexivity.
Qed.

End PolyDataTheory.

Module PolyDataClaims.
Import PolyData PolyDataFacts Synthesis PolyDataTheory Spec Scenes.

Lemma nonempty_writes p previous n :
  nonempty (writes p previous n) =
    differs points p previous || implicit_mode (connectivity p).
Proof.
  unfold writes.
  rewrite foldl_app_nonempty, nonempty_points_write.
  f_equal. unfold synthesis_write, implicit_mode.
  destruct (case_of (connectivity p)); reflexivity.
Qed.

Lemma count_notification f ws r :
  f modified = true -> (forall r, f (dataChanged r) = false) ->
  count f (notification ws (Some r)) = if nonempty ws then 1%nat else 0%nat.
Proof.
  intros Hm Hd. destruct ws; [reflexivity|].
  cbn [notification nonempty]. rewrite !count_cons, Hm, Hd. reflexivity.
Qed.

(** C3 (as amended): an update that pushes no caller-supplied cell
    array and in which [points] changed (it is present and not
    reference-equal to its previous value) or [connectivity] changed to
    one of the modes ['points'], ['triangles'], ['strips'] makes
    exactly one [modified()] call and delivers exactly one
    [dataChanged()] to the owning representation, after all the writes;
    an update in which [points] did not change and the mode is none of
    the three makes no call at all, whatever else changed. *)
Theorem update_notifies_once (p : props) (previous : option props)
    (pts : Js.array Q) (pd : vtkPolyData) (r : handle)
    (d : option handle) :
  points p = Some pts ->
  pushes_cells p previous = false ->
  let o := update p previous (This (Some pd) (Some r) d) in
  Js.result o = Js.Normal tt /\
  (differs points p previous = true \/
   implicit_mode (connectivity p) && connectivity_changed p previous = true ->
     count is_modified (Js.trace o) = 1%nat /\
     count is_dataChanged (Js.trace o) = 1%nat /\
     exists ws, Js.trace o = ws ++ [modified; dataChanged r] /\
                Forall (fun c => is_write c = true) ws) /\
  (differs points p previous = false ->
   implicit_mode (connectivity p) = false ->
   Js.trace o = []).
Proof.
  intros Hp Hcells o. unfold o. rewrite (update_run _ _ _ _ _ _ Hp Hcells).
  cbn [Js.result Js.trace].
  pose proof (writes_are_writes p previous (length (Js.elems pts))) as Hw.
  pose proof (nonempty_writes p previous (length (Js.elems pts))) as Hn.
  set (ws := writes p previous (length (Js.elems pts))) in *.
  split; [reflexivity|]. split.
  - intros Hpush.
    assert (Hne : nonempty ws = true).
    { rewrite Hn. destruct Hpush as [->|Hpush]; [reflexivity|].
      apply andb_true_iff in Hpush as [-> _]. apply orb_true_r. }
    rewrite !count_app.
    rewrite !(count_only_writes _ ws) by
      (auto; intros c Hc; destruct c; simpl in *; congruence).
    destruct ws as [|w ws']; [discriminate|].
    cbn [notification]. rewrite !count_cons. cbn.
    repeat split. exists (w :: ws'). split; [reflexivity|exact Hw].
  - intros Hpts Hmode. rewrite Hpts, Hmode in Hn.
    destruct ws; [reflexivity|discriminate].
Qed.

Lemma update_notifies_once_witness :
  let o := update moved_triangle (Some only_points)
             (live (Some 7%nat) (Some 8%nat)) in
  count is_write (Js.trace o) = 2%nat /\
  count is_modified (Js.trace o) = 1%nat /\
  count is_dataChanged (Js.trace o) = 1%nat.
Proof.
  pose proof (update_notifies_once moved_triangle (Some only_points)
                moved_points newInstance 7%nat (Some 8%nat) eq_refl eq_refl)
    as (_ & H & _).
  destruct (H (or_introl eq_refl)) as (Hm & Hd & _).
  split; [reflexivity|]. split; [exact Hm|exact Hd].
Defined.

(** C3, as stated, fails: a node is mounted in ['points'] mode; in the
    next update [connectivity] has changed, to ['manual'], a mode for
    which [update] does nothing: no write and no notification. *)
Lemma manual_mode_not_notified :
  let previous := points_mode in
  let next := only_points in
  let rendered := after [Render (Some 7%nat) (Some 8%nat)] constructor in
  let mounted := after [DidMount previous] rendered in
  let o := componentDidUpdate next previous mounted in
  Js.result (componentDidMount previous rendered) = Js.Normal tt /\
  Js.string_neq (connectivity next) (connectivity previous) = true /\
  Js.result o = Js.Normal tt /\
  count is_modified (Js.trace o) = 0%nat /\
  count is_dataChanged (Js.trace o) = 0%nat.
Proof. repeat split. Qed.

(** C5 fails on the code: an update that sets out to push a
    caller-supplied cell array throws a TypeError when it calls
    [cellFrom], whether [points] holds at most 196608 numbers or more.
    No cell array is stored, at either width: the four cell arrays of
    the dataset are what they were, and neither [modified()] nor
    [dataChanged()] is called. *)
Theorem supplied_cells_never_stored (c : cells) (p : props)
    (previous : option props) (pts : Js.array Q)
    (pd : vtkPolyData) (r d : option handle) :
  points p = Some pts ->
  differs (attribute c) p previous = true ->
  let o := update p previous (This (Some pd) r d) in
  Js.result o = Js.Throw Js.TypeError /\
  count is_cells_write (Js.trace o) = 0%nat /\
  (forall c', get_cells c' <$> polydata (Js.final o) =
                Some (get_cells c' pd)) /\
  count is_modified (Js.trace o) = 0%nat /\
  count is_dataChanged (Js.trace o) = 0%nat.
Proof.
  intros Hp Hd o.
  assert (Hc : pushes_cells p previous = true).
  { unfold pushes_cells. destruct c; cbn [attribute] in Hd; rewrite Hd;
      rewrite ?orb_true_r; reflexivity. }
  unfold o. rewrite (update_throws _ _ _ _ _ _ Hp Hc).
  cbn [Js.result Js.trace Js.final polydata fmap option_fmap option_map].
  rewrite !count_points_write by reflexivity.
  repeat split. intros c'.
  rewrite get_cells_foldl, last_write_points. reflexivity.
Qed.

Lemma supplied_cells_never_stored_witness :
  let o := update three_attributes (Some only_points)
             (live (Some 7%nat) None) in
  Js.result o = Js.Throw Js.TypeError /\
  Js.trace o = [] /\
  pd_polys <$> polydata (Js.final o) = Some (TypedArray.Make U32 []).
Proof.
  pose proof (supplied_cells_never_stored Polys three_attributes
                (Some only_points) sample_points newInstance
                (Some 7%nat) None eq_refl eq_refl)
    as (Hthrow & _ & Hkept & _).
  split; [exact Hthrow|]. split; [reflexivity|]. exact (Hkept Polys).
Defined.

(** C10: in the modes ['points'], ['triangles'] and ['strips'], an
    update that pushes no caller-supplied cell array completes, and the
    synthesised block is written, and left in the dataset, as a 32-bit
    array, whatever the length of [points]. *)
Theorem synthesised_block_is_wide (p : props) (previous : option props)
    (pts : Js.array Q) (pd : vtkPolyData) (r d : option handle) :
  points p = Some pts ->
  pushes_cells p previous = false ->
  let o := update p previous (This (Some pd) r d) in
  let nbPoints := nbPoints_of (length (Js.elems pts)) in
  let written (c : cells) (values : TypedArray.t) :=
    In (Cells_setData c values) (Js.trace o) /\
    get_cells c <$> polydata (Js.final o) = Some values /\
    ta_width values = U32 in
  Js.result o = Js.Normal tt /\
  (connectivity p = Some "points"%string ->
     written Verts (ids_block nbPoints)) /\
  (connectivity p = Some "triangles"%string ->
     written Polys (triangles_block nbPoints)) /\
  (connectivity p = Some "strips"%string ->
     written Strips (ids_block nbPoints)).
Proof.
  intros Hp Hcells o nbPoints written. unfold written, o.
  rewrite (update_run _ _ _ _ _ _ Hp Hcells).
  cbn [Js.result Js.trace Js.final polydata fmap option_fmap option_map].
  repeat split; try apply in_or_app; try left;
    try apply In_writes_synthesis;
    try (f_equal; rewrite get_cells_foldl;
         erewrite last_write_synthesis; [reflexivity|]);
    try (unfold synthesis_write;
         match goal with H : connectivity p = _ |- _ => rewrite H end;
         simpl; auto; fail);
    auto using ids_block_width, triangles_block_width.
Qed.

Lemma synthesised_block_is_wide_witness :
  let o := update one_triangle None (live None None) in
  In (Cells_setData Polys (TypedArray.Make U32 [3; 0; 1; 2])) (Js.trace o) /\
  ta_width (triangles_block (nbPoints_of 9)) = U32.
Proof.
  pose proof (synthesised_block_is_wide one_triangle None sample_points
                newInstance None None eq_refl eq_refl) as (_ & _ & H & _).
  destruct (H eq_refl) as (Hin & _ & Hwide). split; [exact Hin|exact Hwide].
Defined.

(** C6: in ['triangles'] mode, with [points] of length [3 * n] and
    [n] divisible by 3, an update that pushes no caller-supplied cell
    array completes, and the block written to the polygon array, and
    left there, is the concatenation of [3, i, i+1, i+2] for
    i = 0, 3, ..., n-3.  ([points] is a JavaScript array, so its
    length is below 2^32.) *)
Theorem triangles_mode_cells (p : props) (previous : option props)
    (pts : Js.array Q) (n : nat) (pd : vtkPolyData)
    (r d : option handle) :
  points p = Some pts ->
  connectivity p = Some "triangles"%string ->
  pushes_cells p previous = false ->
  length (Js.elems pts) = (3 * n)%nat ->
  (n mod 3 = 0)%nat ->
  Z.of_nat (length (Js.elems pts)) < 2 ^ 32 ->
  let o := update p previous (This (Some pd) r d) in
  let block := TypedArray.Make U32 (triangle_cells n) in
  Js.result o = Js.Normal tt /\
  In (Cells_setData Polys block) (Js.trace o) /\
  pd_polys <$> polydata (Js.final o) = Some block.
Proof.
  intros Hp Hc Hcells Hlen Hdiv Hjs o block. unfold o, block.
  rewrite (update_run _ _ _ _ _ _ Hp Hcells).
  cbn [Js.result Js.trace Js.final polydata fmap option_fmap option_map].
  assert (Hm : n = (3 * (n / 3))%nat).
  { apply Nat.Div0.div_exact. exact Hdiv. }
  set (m := (n / 3)%nat) in *.
  assert (Hsyn : synthesis_write p (length (Js.elems pts)) =
                 [Cells_setData Polys
                    (TypedArray.Make U32 (triangle_cells n))]).
  { unfold synthesis_write. rewrite Hc. cbn [case_of]. cbv zeta.
    rewrite Hlen, Hm.
    replace (3 * (3 * m))%nat with (9 * m)%nat by lia.
    change (inject_Z (Z.of_nat (9 * m)) / 3)%Q with (nbPoints_of (9 * m)).
    rewrite triangles_block_closed by lia. reflexivity. }
  split; [reflexivity|]. split.
  - apply in_or_app. left. apply In_writes_synthesis.
    rewrite Hsyn. now left.
  - f_equal. change pd_polys with (get_cells Polys).
    rewrite get_cells_foldl.
    now rewrite (last_write_synthesis _ _ _ _ _ _ Hsyn).
Qed.

Lemma triangles_mode_cells_witness :
  let o := update one_triangle None (live None None) in
  pd_polys <$> polydata (Js.final o) =
    Some (TypedArray.Make U32 [3; 0; 1; 2]).
Proof.
  pose proof (triangles_mode_cells one_triangle None sample_points 3
                newInstance None None eq_refl eq_refl eq_refl eq_refl
                eq_refl)
    as H.
  apply H. simpl. lia.
Defined.

(** What holds of C2: with no implicit connectivity mode, an update
    whose array attributes are all reference-equal to the previous
    ones makes no call and leaves the dataset as it was. *)
Lemma unchanged_update_is_silent (p : props) (pts : Js.array Q)
    (s : this) (pd : vtkPolyData) :
  points p = Some pts -> polydata s = Some pd ->
  implicit_mode (connectivity p) = false ->
  update p (Some p) s = Js.Outcome (Js.Normal tt) s [].
Proof.
  intros Hp Hs Hc. destruct s as [pd' r d]. simpl in Hs. subst pd'.
  rewrite (update_run _ _ _ _ _ _ Hp (pushes_cells_self p)).
  unfold writes. rewrite points_write_self.
  unfold implicit_mode in Hc. unfold synthesis_write.
  destruct (case_of (connectivity p)); try discriminate. reflexivity.
Qed.

(** What holds of C2: with no implicit connectivity mode an update
    leaves the four cell arrays of the dataset as they were, however it
    completes. *)
Lemma manual_update_keeps_cells (c : cells) (p : props)
    (previous : option props) (pts : Js.array Q) (pd : vtkPolyData)
    (r d : option handle) :
  points p = Some pts ->
  implicit_mode (connectivity p) = false ->
  get_cells c <$> polydata (Js.final (update p previous (This (Some pd) r d)))
    = Some (get_cells c pd).
Proof.
  intros Hp Hc.
  assert (Hdef : case_of (connectivity p) = case_default).
  { unfold implicit_mode in Hc.
    destruct (case_of (connectivity p)); congruence. }
  destruct (pushes_cells p previous) eqn:Hcells.
  - rewrite (update_throws _ _ _ _ _ _ Hp Hcells).
    cbn [Js.final polydata fmap option_fmap option_map]. f_equal.
    rewrite get_cells_foldl, last_write_points. reflexivity.
  - rewrite (update_run _ _ _ _ _ _ Hp Hcells).
    cbn [Js.final polydata fmap option_fmap option_map]. f_equal.
    rewrite get_cells_foldl, last_write_manual by exact Hdef. reflexivity.
Qed.

(** C2 fails on the code: with an implicit connectivity mode an update
    in which nothing changed (the previous props are the very same
    props) still rewrites the synthesised block and calls
    [modified()] and [dataChanged()]. *)
Theorem unchanged_update_repushes_connectivity (p : props)
    (pts : Js.array Q) (pd : vtkPolyData) (r : handle)
    (d : option handle) :
  points p = Some pts ->
  connectivity p = Some "points"%string ->
  Js.trace (update p (Some p) (This (Some pd) (Some r) d)) =
    [Cells_setData Verts (ids_block (nbPoints_of (length (Js.elems pts))));
     modified; dataChanged r].
Proof.
  intros Hp Hc. rewrite (update_run _ _ _ _ _ _ Hp (pushes_cells_self p)).
  cbn [Js.trace]. unfold writes.
  rewrite points_write_self.
  unfold synthesis_write. rewrite Hc. reflexivity.
Qed.

Lemma unchanged_update_repushes_connectivity_witness :
  Js.trace (componentDidUpdate points_mode points_mode
              (live (Some 7%nat) (Some 8%nat))) =
    [Cells_setData Verts (TypedArray.Make U32 [3; 0; 1; 2]);
     modified; dataChanged 7%nat].
Proof.
  exact (unchanged_update_repushes_connectivity points_mode sample_points
           newInstance 7%nat (Some 8%nat) eq_refl eq_refl).
Defined.

(** C8: mounting a node whose downstream reference is null throws, and
    [setInputData] is never called. *)
Theorem mount_without_downstream_throws (p : props) (pd : vtkPolyData)
    (r : option handle) :
  let o := componentDidMount p (This (Some pd) r None) in
  Js.result o = Js.Throw Js.TypeError /\
  count is_setInputData (Js.trace o) = 0%nat.
Proof.
  intros o. unfold o, componentDidMount.
  destruct (points p) as [pts|] eqn:Hp.
  - destruct (pushes_cells p None) eqn:Hcells.
    + rewrite (bind_throw _ _ _ _ _ _ (update_throws _ _ _ _ _ _ Hp Hcells)).
      cbn [Js.result Js.trace]. split; [reflexivity|].
      now apply count_points_write.
    + rewrite (bind_normal _ _ _ _ _ _ (update_run _ _ _ _ _ _ Hp Hcells)).
      cbn [Js.result Js.trace]. split; [reflexivity|].
      rewrite app_nil_r, count_app.
      rewrite count_only_writes;
        [|intros c Hc; destruct c; simpl in *; congruence
         |apply writes_are_writes].
      destruct (writes p None _); [reflexivity|].
      destruct r; reflexivity.
  - rewrite (bind_throw _ _ _ _ _ _ (update_no_points _ _ _ Hp)).
    split; reflexivity.
Qed.

(** The state C8 speaks of is the one a mount reaches when the
    DownstreamContext holds [null]. *)
Lemma render_without_downstream (r : option handle) :
  Js.final (render r None constructor) = This (Some newInstance) r None.
Proof. reflexivity. Qed.

End PolyDataClaims.

Module PolyDataContext.
Import PolyData Spec Scenes.














End PolyDataContext.

(* ===================================================================== *)
(** ** View and MultiViewRoot *)
(* ===================================================================== *)

Module ViewClaims.
Import Dom Spec Scenes.

(** C7: unmounting a View makes its calls in this order: the key
    listener and the resize observer go first, then the interactor
    events are unbound, the render surface is detached from its
    container, the renderer and then the render-surface view are
    removed from the render window, and the interactor, the renderer,
    the render window and the render surface are released, in this
    order. *)
Theorem unmount_order (c : option container) (rw r v i ro : handle)
    (st : option handle) (focus : bool) :
  let s := View.This c (Some rw) (Some r) (Some v) (Some i) st (Some ro)
             focus in
  let o := View.componentWillUnmount s in
  Js.result o = Js.Normal tt /\
  Js.trace o =
    [removeKeyListener; disconnect] ++
    [unbindEvents i; setContainer v None;
     removeRenderer rw (Some r); removeView rw (Some v);
     delete i; delete r; delete rw; delete v] /\
  Js.final o = View.This c None None None None st None focus.
Proof. repeat split. Qed.

Example unmount_order_constructed :
  Js.trace (View.componentWillUnmount
              (mounted_view 1%nat (Container 100%nat 640 480))) =
    [removeKeyListener; disconnect; unbindEvents 4%nat;
     setContainer 3%nat None; removeRenderer 1%nat (Some 2%nat);
     removeView 1%nat (Some 3%nat); delete 4%nat; delete 2%nat;
     delete 1%nat; delete 3%nat].
Proof. reflexivity. Qed.

(** What [MultiViewRoot.onResize] does, for comparison: it scales
    the logical size by the device pixel ratio before the minimum is
    applied. *)
Lemma root_resize_scales (c : container) (d : float)
    (rw v : handle) (i : option handle) (init : bool) (tmo : option nat)
    (w : MultiViewRoot.world) :
  MultiViewRoot.devicePixelRatio w = d ->
  Js.truthy_number d = true ->
  let root :=
    MultiViewRoot.State
      (MultiViewRoot.This (Some c) (Some rw) (Some v) i init tmo) w in
  MultiViewRoot.onResize root =
    Js.Outcome (Js.Normal tt) root
      [setSize v (Js.Math_max (Js.Math_floor (width c * d)) 10)
                 (Js.Math_max (Js.Math_floor (height c * d)) 10);
       render rw].
Proof.
  intros Hw Hd root.
  unfold MultiViewRoot.onResize, root, mbind, M_bind, Js.bind.
  cbn [Js.get Js.result Js.final Js.trace MultiViewRoot.self
       MultiViewRoot.env MultiViewRoot.containerRef
       MultiViewRoot.renderWindowView MultiViewRoot.renderWindow
       Js.deref Js.ret Js.emit app].
  rewrite Hw, Hd. reflexivity.
Qed.

(** C4 fails on the code of View: a resize never reads the device
    pixel ratio.  It sizes the render surface to
    max(width, 10) x max(height, 10), the logical size: on a 100 x 50
    container under a device pixel ratio of 2 that is 100 x 50, where
    MultiViewRoot sets 200 x 100 on the same container. *)
Theorem view_resize_ignores_pixel_ratio :
  (forall (c : container) (rw v : handle) (r i st ro : option handle)
          (focus : bool),
     let view := View.This (Some c) (Some rw) r (Some v) i st ro focus in
     View.onResize view =
       Js.Outcome (Js.Normal tt) view
         [setSize v (Js.Math_max (width c) 10) (Js.Math_max (height c) 10);
          render rw]) /\
  let c := Container 100%nat 100 50 in
  Js.trace (View.onResize (mounted_view 1%nat c)) =
    [setSize 3%nat 100 50; render 1%nat] /\
  Js.trace (MultiViewRoot.onResize
              (mounted_root 1%nat c 2 (MultiViewRoot.Props false 0))) =
    [setSize 2%nat 200 100; render 1%nat].
Proof. repeat split. Qed.

End ViewClaims.

Module MultiViewRootClaims.
Import Dom MultiViewRoot Spec Scenes.

(** C1 fails on the code: a render deferred by a change of
    [triggerRender] is still pending after the unmount (which
    completes without throwing), and when its timer fires [render] is
    called on the render window that the unmount released. *)
Theorem pending_render_fires_after_unmount (c : option container)
    (rw v i : handle) (init : bool) (tmo : option nat)
    (ic : option handle) (dpr : float) (nt : nat) (rel : list handle)
    (p prev : props) :
  triggerRender p <> triggerRender prev ->
  let s := State (This c (Some rw) (Some v) (Some i) init tmo)
             (World ic dpr [] nt rel) in
  let unmounted := (componentDidUpdate p prev;; componentWillUnmount) s in
  let fired := fire_timer (Js.final unmounted) in
  Js.result unmounted = Js.Normal tt /\
  renderWindow (self (Js.final unmounted)) = None /\
  In rw (released (env (Js.final unmounted))) /\
  timers (env (Js.final unmounted)) = [(nt, render_of rw)] /\
  Js.trace fired = [render rw].
Proof.
  intros Hneq s unmounted fired.
  unfold fired, unmounted, s, componentDidUpdate, update.
  destruct (Z.eqb_spec (triggerRender p) (triggerRender prev)) as [E|_];
    [contradiction|].
  destruct init, ic; repeat split; cbv; auto 10.
Qed.

Lemma pending_render_fires_after_unmount_witness :
  let s := mounted_root 1%nat (Container 100%nat 640 480) 2 (Props false 0) in
  let unmounted :=
    (componentDidUpdate (Props false 1) (Props false 0);;
     componentWillUnmount) s in
  Js.result unmounted = Js.Normal tt /\
  In 1%nat (released (env (Js.final unmounted))) /\
  Js.trace (fire_timer (Js.final unmounted)) = [render 1%nat].
Proof.
  assert (Hneq : triggerRender (Props false 1) <> triggerRender (Props false 0))
    by discriminate.
  pose proof (pending_render_fires_after_unmount
                (Some (Container 100%nat 640 480)) 1%nat 2%nat 3%nat true
                None None 2 1%nat [] (Props false 1) (Props false 0) Hneq)
    as (H1 & _ & H3 & _ & H5).
  split; [exact H1|]. split; [exact H3|exact H5].
Defined.

End MultiViewRootClaims.
